(** * gracegroup: start/shutdown orchestration of a group of processes

    A shallow embedding of the Go package [gracegroup] (config.go and the
    file declaring [Group], [New], [Add], [Wait], [wait] and [shutdown]),
    together with the parts of the Go standard library and of
    [golang.org/x/sync/errgroup] that [Wait] is built from:

    - [errors.Is] and [errors.Join] over error values built by
      [errors.New], [fmt.Errorf] with one [%w] operand and [errors.Join],
      plus the two sentinels of package [context];
    - [context.WithCancel], [context.WithCancelCause] and
      [context.WithTimeout], as far as deadlines and cancellation causes go;
    - [errgroup.Group]: the once-only error, the wait-group counter and the
      cancel function installed by [errgroup.WithContext].

    Goroutines are modelled by interleaving: a run of [Wait] is driven by a
    schedule that lists, in the order in which they take effect, the
    returns of the start functions, the end of the caller's context, the
    wake-up of the goroutine that [wait] spawns, and the returns of the
    shutdown functions.  A schedule that stops before a phase can finish
    leaves [Wait] blocked.

    Errors and contexts that Go allocates carry the address of their
    allocation, so that [==] on them is the comparison of addresses; a run
    allocates from the first free address of its world.

    The [for ... range] loops bind their variable per iteration (Go 1.22
    and later), which is what the repository's own tests rely on. *)

From Stdlib Require Import ZArith Lia.
From stdpp Require Import base decidable option list numbers.

Set Warnings "-register-all".
Open Scope Z_scope.

(** ** Package [errors] *)

Module errors.

(** Go error values.  [errorString], [wrapError] and [joinError] are
    pointers in Go: [addr] is the address of the allocation, and two such
    values are [==] exactly when they are the same allocation.
    [context.Canceled] is one fixed allocation, [context.DeadlineExceeded]
    a value of an empty struct type. *)
Inductive error : Type :=
| Canceled
| DeadlineExceeded
| errorString (addr : nat)
| wrapError (addr : nat) (err : error)
| joinError (addr : nat) (errs : list error).

(** The Go interface comparison [err == target] on non-nil operands. *)
Definition same (err target : error) : bool :=
  match err, target with
  | Canceled, Canceled => true
  | DeadlineExceeded, DeadlineExceeded => true
  | errorString p, errorString q => Nat.eqb p q
  | wrapError p _, wrapError q _ => Nat.eqb p q
  | joinError p _, joinError q _ => Nat.eqb p q
  | _, _ => false
  end.

(** [errors.is] (named [is_] here, [is] being reserved): the loop over the
    [Unwrap] chain, depth first through [Unwrap() []error].  Every error
    of the model is comparable and none has an [Is] method. *)
Fixpoint is_ (err target : error) {struct err} : bool :=
  if same err target then true
  else match err with
       | wrapError _ inner => is_ inner target
       | joinError _ errs =>
           (fix any (l : list error) : bool :=
              match l with
              | [] => false
              | e :: l' => if is_ e target then true else any l'
              end) errs
       | _ => false
       end.

(** [errors.Is] on possibly nil interface values. *)
Definition Is (err target : option error) : bool :=
  match err, target with
  | Some e, Some t => is_ e t
  | None, None => true
  | _, _ => false
  end.

(** [errors.Join]: nil operands are dropped; nil when nothing is left,
    otherwise a freshly allocated [*joinError] (at [addr]) holding the
    remaining errors in argument order. *)
Definition Join (addr : nat) (errs : list (option error)) : option error :=
  match omap id errs with
  | [] => None
  | es => Some (joinError addr es)
  end.

End errors.
Export errors.

(** ** Packages [time] and [context] *)

Module time.

(** [time.Duration] is a count of nanoseconds; [time.Time] is modelled as
    nanoseconds on the same scale. *)
Definition Duration := Z.
Definition Time := Z.

Definition Nanosecond : Duration := 1.
Definition Microsecond : Duration := 1000 * Nanosecond.
Definition Millisecond : Duration := 1000 * Microsecond.
Definition Second : Duration := 1000 * Millisecond.

(** [t.Add(d)] *)
Definition Add (t : Time) (d : Duration) : Time := t + d.

End time.

Module context.

(** The contexts [Wait] meets: the root, a cancelable child
    ([WithCancel] and [WithCancelCause] both allocate a [*cancelCtx]),
    and a child with a deadline.  [addr] is the allocation's address. *)
Inductive Context : Type :=
| Background
| cancelCtx (addr : nat) (parent : Context)
| timerCtx (addr : nat) (parent : Context) (deadline : time.Time).

(** [ctx.Deadline()] *)
Fixpoint Deadline (ctx : Context) : option time.Time :=
  match ctx with
  | Background => None
  | cancelCtx _ parent => Deadline parent
  | timerCtx _ _ d => Some d
  end.

Definition WithCancel (parent : Context) (addr : nat) : Context :=
  cancelCtx addr parent.


(** [WithDeadline]: a parent deadline that is already earlier wins. *)
Definition WithDeadline (parent : Context) (d : time.Time) (addr : nat)
  : Context :=
  match Deadline parent with
  | Some cur => if cur <? d then WithCancel parent addr
                else timerCtx addr parent d
  | None => timerCtx addr parent d
  end.

(** [WithTimeout(parent, timeout)] is
    [WithDeadline(parent, time.Now().Add(timeout))]. *)
Definition WithTimeout (parent : Context) (timeout : time.Duration)
    (now : time.Time) (addr : nat) : Context :=
  WithDeadline parent (time.Add now timeout) addr.





End context.

(** ** config.go *)

Definition DefaultShutdownTimeout : time.Duration := 5 * time.Second.

Record Config : Type := {
  ShutdownTimeout : time.Duration
}.

Definition DefaultConfig : Config :=
  {| ShutdownTimeout := DefaultShutdownTimeout |}.

(** ** The group and its registry *)

(** A start function is called without arguments and yields an error or
    nil when (and if) it returns; when it returns is the schedule's
    business. *)
Abbreviation StartFn := (unit -> option error).

(** A shutdown function is handed the shutdown context. *)
Abbreviation ShutdownFn := (context.Context -> option error).

(** The mutex [mu] only serialises [Add] calls; the model runs them one
    after the other. *)
Record Group : Type := {
  cfg : Config;
  startFns : list StartFn;
  shutdownFns : list ShutdownFn
}.

Definition New (c : Config) : Group :=
  {| cfg := c; startFns := []; shutdownFns := [] |}.

Definition Add (r : Group) (start : StartFn) (shutdown : ShutdownFn) : Group :=
  {| cfg := cfg r;
     startFns := startFns r ++ [start];
     shutdownFns := shutdownFns r ++ [shutdown] |}.

(** A sequence of [Add] calls, first call first. *)
Definition AddAll (r : Group) (entries : list (StartFn * ShutdownFn)) : Group :=
  fold_left (fun g e => Add g (fst e) (snd e)) entries r.

(** ** One run of [Wait] *)

(** What a blocking call has done by the end of the schedule. *)
Inductive Outcome : Type :=
| Blocked
| Returned (err : option error).

(** What can happen while [wait] is blocked in its [select]. *)
Inductive Event : Type :=
| StartReturns (i : nat)      (* the goroutine of [g.Go(start)] finishes *)
| CtxDone (cause : error)     (* the caller's context ends, with this cause *)
| WaiterWakes.                (* the goroutine of [wait] gets past [g.Wait()] *)

(** The record of a shutdown function having been run: which one, and the
    context it was given.  A run of a function is accounted for as a
    whole, at its return. *)
Inductive Call : Type :=
| CallShutdown (j : nat) (ctx : context.Context).

(** The scheduler's and the environment's side of one run. *)
Record World : Type := {
  events : list Event;      (* run phase, in order of effect *)
  finished : list nat;      (* shutdown functions, in order of return *)
  now : time.Time;          (* [time.Now()] inside [shutdown] *)
  heap : nat                (* first free address *)
}.

(** The state shared by [Wait], the start goroutines and the waiter:
    the cause of the context derived by [errgroup.WithContext] (nil until
    it is canceled), the errgroup's [err] and wait-group, and whether the
    channel [done] is closed. *)
Record RunState : Type := {
  cause : option error;
  g_err : option error;
  g_wg : list nat;
  done : bool
}.

(** The [CancelCauseFunc] of the derived context: the first call wins, and
    a nil cause stands for [context.Canceled]. *)
Definition cancel (c : option error) (st : RunState) : RunState :=
  match cause st with
  | Some _ => st
  | None => {| cause := Some (default Canceled c); g_err := g_err st;
               g_wg := g_wg st; done := done st |}
  end.

(** The body of the goroutine started by [g.Go(f)], from the return of [f]:
    [errOnce] records the first non-nil error and cancels with it, then
    [wg.Done()]. *)
Definition go_returns (i : nat) (ret : option error) (st : RunState)
  : RunState :=
  let st1 :=
    match ret, g_err st with
    | Some e, None =>
        cancel (Some e) {| cause := cause st; g_err := Some e;
                           g_wg := g_wg st; done := done st |}
    | _, _ => st
    end in
  {| cause := cause st1; g_err := g_err st1;
     g_wg := filter (fun k => k <> i) (g_wg st1); done := done st1 |}.

Definition step (r : Group) (st : RunState) (ev : Event) : RunState :=
  match ev with
  | StartReturns i =>
      match startFns r !! i with
      | Some start =>
          if bool_decide (i ∈ g_wg st) then go_returns i (start tt) st else st
      | None => st
      end
  | CtxDone c =>
      (* propagation from the parent: [child.cancel(false, parent.Err(),
         Cause(parent))] *)
      cancel (Some c) st
  | WaiterWakes =>
      (* [g.Wait()]: [wg.Wait()], then [g.cancel(g.err)]; then [close(done)] *)
      match g_wg st with
      | [] => let st1 := cancel (g_err st) st in
              {| cause := cause st1; g_err := g_err st1;
                 g_wg := g_wg st1; done := true |}
      | _ :: _ => st
      end
  end.

(** After [errgroup.WithContext] and the [g.Go] loop of [Wait]. *)
Definition launched (r : Group) : RunState :=
  {| cause := None; g_err := None;
     g_wg := seq 0 (length (startFns r)); done := false |}.

Definition exec (r : Group) (st : RunState) (evs : list Event) : RunState :=
  fold_left (step r) evs st.

(** [Group.wait]: the [select] falls through once [done] is closed or the
    derived context is done; the result is then read off the cause. *)
Definition wait (r : Group) (evs : list Event) : Outcome :=
  let st := exec r (launched r) evs in
  if done st || bool_decide (is_Some (cause st)) then
    let err := cause st in
    if negb (Is err (Some Canceled)) then Returned err else Returned None
  else Blocked.

(** The context that [shutdown] hands out. *)
Definition shutdown_ctx (r : Group) (now : time.Time) (addr : nat)
  : context.Context :=
  let ctx := context.WithCancel context.Background addr in
  if 0 <? ShutdownTimeout (cfg r)
  then context.WithTimeout ctx (ShutdownTimeout (cfg r)) now (S addr)
  else ctx.

(** The second errgroup, without a context: [err] and the wait-group;
    and the shutdown functions run so far. *)
Record ShutdownState : Type := {
  s_err : option error;
  s_wg : list nat;
  s_calls : list Call
}.

(** [shutdownFn(ctx)] for the [j]-th function: what it returns, and the
    record of the call. *)
Definition invoke (j : nat) (shutdownFn : ShutdownFn) (ctx : context.Context)
  : option error * Call :=
  (shutdownFn ctx, CallShutdown j ctx).

(** The goroutine of [g.Go(func() error { return shutdownFn(ctx) })] for
    the [j]-th function, from call to [wg.Done()]: [errOnce] keeps its
    error if it is the first. *)
Definition shutdown_step (r : Group) (ctx : context.Context)
    (st : ShutdownState) (j : nat) : ShutdownState :=
  match shutdownFns r !! j with
  | Some shutdownFn =>
      if bool_decide (j ∈ s_wg st) then
        let ran := invoke j shutdownFn ctx in
        {| s_err := match s_err st with
                    | Some e => Some e
                    | None => fst ran
                    end;
           s_wg := filter (fun k => k <> j) (s_wg st);
           s_calls := s_calls st ++ [snd ran] |}
      else st
  | None => st
  end.

(** The errgroup of [shutdown] after its [g.Go] loop. *)
Definition started (r : Group) : ShutdownState :=
  {| s_err := None; s_wg := seq 0 (length (shutdownFns r)); s_calls := [] |}.

Definition shutdown_exec (r : Group) (ctx : context.Context)
    (order : list nat) : ShutdownState :=
  fold_left (shutdown_step r ctx) order (started r).

(** [Group.shutdown]: [g.Wait()] returns [g.err] once every goroutine has
    called [wg.Done()]. *)
Definition shutdown (r : Group) (now : time.Time) (addr : nat)
    (order : list nat) : Outcome :=
  let st := shutdown_exec r (shutdown_ctx r now addr) order in
  match s_wg st with
  | [] => Returned (s_err st)
  | _ :: _ => Blocked
  end.

(** The shutdown functions that [shutdown] has run by the end of the
    schedule, as its goroutines recorded them. *)
Definition shutdown_log (r : Group) (now : time.Time) (addr : nat)
    (order : list nat) : list Call :=
  s_calls (shutdown_exec r (shutdown_ctx r now addr) order).


Record Run : Type := {
  calls : list Call;
  run_err : Outcome;        (* what [r.wait] returned *)
  shutdown_err : Outcome;   (* what [r.shutdown] returned *)
  result : Outcome          (* what [Wait] returned *)
}.

(** [Group.Wait].  Addresses: the derived run context at [heap], the
    shutdown contexts at [heap + 1] and [heap + 2], the joined error at
    [heap + 3]. *)
Definition Wait_run (r : Group) (ctx : context.Context) (w : World) : Run :=
  match wait r (events w) with
  | Blocked =>
      {| calls := []; run_err := Blocked;
         shutdown_err := Blocked; result := Blocked |}
  | Returned err =>
      let cs := shutdown_log r (now w) (S (heap w)) (finished w) in
      match shutdown r (now w) (S (heap w)) (finished w) with
      | Blocked =>
          {| calls := cs; run_err := Returned err;
             shutdown_err := Blocked; result := Blocked |}
      | Returned shutdownError =>
          {| calls := cs; run_err := Returned err;
             shutdown_err := Returned shutdownError;
             result := Returned (Join (heap w + 3) [shutdownError; err]) |}
      end
  end.

Definition Wait (r : Group) (ctx : context.Context) (w : World) : Outcome :=
  result (Wait_run r ctx w).

(** The contexts with which shutdown function [j] was called. *)
Definition shutdown_calls_of (j : nat) (cs : list Call)
  : list context.Context :=
  omap (fun c => match c with
                 | CallShutdown k ctx => if Nat.eqb k j then Some ctx else None
                 end) cs.

(** ** Invariants and auxiliary notions *)

(** What holds of the shared state throughout: [done] is closed only
    after the waiter canceled, the errgroup cancels as it records its
    error, and the wait-group holds indices of registered functions. *)
Definition consistent (r : Group) (st : RunState) : Prop :=
  (done st = true -> is_Some (cause st)) /\
  (is_Some (g_err st) -> is_Some (cause st)) /\
  (forall k, k ∈ g_wg st -> (k < length (startFns r))%nat).

(** The wait-group of the shutdown phase holds indices of registered
    functions. *)
Definition bounded (r : Group) (st : ShutdownState) : Prop :=
  forall k, k ∈ s_wg st -> (k < length (shutdownFns r))%nat.

(** Where a cause of the derived context can come from. *)
Definition cause_from (r : Group) (evs : list Event) (c : error) : Prop :=
  CtxDone c ∈ evs \/
  (exists i start, StartReturns i ∈ evs /\
                   startFns r !! i = Some start /\ start tt = Some c) \/
  (c = Canceled /\ WaiterWakes ∈ evs /\
   forall i, (i < length (startFns r))%nat -> StartReturns i ∈ evs).

(** Causes that [wait] turns into a nil result. *)
Definition voluntary (ev : Event) : Prop :=
  match ev with
  | CtxDone x => is_ x Canceled = true
  | _ => True
  end.

(** ** Scenarios *)

(** The harness of the repository's tests: [Wait] must return, and
    [errors.Is] must find the expected error in what it returns. *)
Definition expect (ctx : context.Context) (r : Group) (w : World)
    (expected : option error) : bool :=
  match Wait r ctx w with
  | Returned err => Is err expected
  | Blocked => false
  end.

(** The contexts that callers pass: the root, a cancelable context (as
    made by [context.WithCancel] or [signal.NotifyContext]) and one with a
    deadline, the last two allocated by the caller at address 0. *)
Definition caller_ctx : context.Context :=
  context.cancelCtx 0 context.Background.

Definition deadline_ctx : context.Context :=
  context.timerCtx 0 context.Background 1000.

Definition errStartFn : error := errorString 100.
Definition errShutdownFn : error := errorString 101.
Definition errShutdown2 : error := errorString 102.

Definition quiet_start : StartFn := fun _ => None.
Definition failing_start : StartFn := fun _ => Some errStartFn.
Definition quiet_shutdown : ShutdownFn := fun _ => None.

(** A shutdown function that needs [work] from [began] on and gives up
    with [ctx.Err()] when the deadline of its context comes first. *)
Definition slow_shutdown (began : time.Time) (work : time.Duration)
  : ShutdownFn :=
  fun ctx =>
    match context.Deadline ctx with
    | Some d => if d <? began + work then Some DeadlineExceeded else None
    | None => None
    end.

Definition schedule (evs : list Event) (order : list nat) : World :=
  {| events := evs; finished := order; now := 0; heap := 1 |}.

(** The server of [example/servers.go] in miniature: the context is
    canceled by a signal, and [ListenAndServe] then returns its non-nil
    "server closed" error while the group is shutting down. *)
Definition example_server : Group :=
  Add (New DefaultConfig) (fun _ => Some (errorString 7)) (fun _ => None).

Definition example_signal : World :=
  {| events := [CtxDone Canceled; StartReturns 0];
     finished := [0%nat]; now := 0; heap := 1 |}.

(** Two workers whose shutdown functions both fail, with distinct errors;
    the start functions return nil at once. *)
Definition two_failing_shutdowns : Group :=
  AddAll (New DefaultConfig)
    [(quiet_start, (fun _ => Some errShutdownFn) : ShutdownFn);
     (quiet_start, (fun _ => Some errShutdown2) : ShutdownFn)].

Definition both_shut_down : World :=
  {| events := [StartReturns 0; StartReturns 1; WaiterWakes];
     finished := [0%nat; 1%nat]; now := 0; heap := 1 |}.

(** A cause that wraps [context.Canceled], as given to the cancel function
    of [context.WithCancelCause] after
    [fmt.Errorf("...: %w", context.Canceled)]. *)
Definition wrapped_cancel : error := wrapError 9 Canceled.

Definition one_quiet_worker : Group :=
  Add (New DefaultConfig) quiet_start quiet_shutdown.

(** The seventh test of [TestGroup], "all functions without errors should
    stop process without error": the context is never canceled. *)
Definition two_quiet_workers : Group :=
  AddAll (New DefaultConfig)
    [(quiet_start, quiet_shutdown); (quiet_start, quiet_shutdown)].

Definition all_return : list Event :=
  [StartReturns 0; StartReturns 1; WaiterWakes].

(** ** Tactics *)

(** Case analysis on one step of the run phase. *)
Ltac step_cases :=
  unfold step, go_returns, cancel in *;
  repeat (case_match; simpl in *; simplify_eq; try done).



(** * Properties *)

(** ** The tests of the repository, replayed *)

Example test_start_error_stops_group :
  expect caller_ctx (Add (New DefaultConfig) failing_start quiet_shutdown)
         (schedule [StartReturns 0] [0%nat]) (Some errStartFn) = true.
Proof. reflexivity. Qed.

Example test_shutdown_error :
  expect caller_ctx (Add (New DefaultConfig) quiet_start (fun _ => Some errShutdownFn))
         (schedule [StartReturns 0; WaiterWakes] [0%nat])
         (Some errShutdownFn) = true.
Proof. reflexivity. Qed.

Example test_shutdown_timeout :
  expect caller_ctx (Add (New {| ShutdownTimeout := 10 * time.Millisecond |})
              quiet_start (slow_shutdown 0 (250 * time.Millisecond)))
         (schedule [StartReturns 0; WaiterWakes] [0%nat])
         (Some DeadlineExceeded) = true.
Proof. reflexivity. Qed.

Example test_nil_start_does_not_stop :
  wait (AddAll (New DefaultConfig)
          [(quiet_start, quiet_shutdown); (failing_start, quiet_shutdown)])
       [StartReturns 0] = Blocked /\
  expect caller_ctx (AddAll (New DefaultConfig)
            [(quiet_start, quiet_shutdown); (failing_start, quiet_shutdown)])
         (schedule [StartReturns 0; StartReturns 1] [0%nat; 1%nat])
         (Some errStartFn) = true.
Proof. split; reflexivity. Qed.

Example test_failing_start_stops :
  expect caller_ctx (AddAll (New DefaultConfig)
            [(failing_start, quiet_shutdown); (quiet_start, quiet_shutdown)])
         (schedule [StartReturns 0] [0%nat; 1%nat])
         (Some errStartFn) = true.
Proof. reflexivity. Qed.

Example test_canceled_context :
  expect caller_ctx (Add (New DefaultConfig) quiet_start quiet_shutdown)
         (schedule [CtxDone Canceled] [0%nat]) None = true.
Proof. reflexivity. Qed.

Example test_all_without_errors :
  expect caller_ctx (AddAll (New DefaultConfig)
            [(quiet_start, quiet_shutdown); (quiet_start, quiet_shutdown)])
         (schedule [StartReturns 0; StartReturns 1; WaiterWakes]
                   [0%nat; 1%nat]) None = true.
Proof. reflexivity. Qed.

Example test_one_of_shutdown_functions_returns_error :
  expect context.Background (AddAll (New DefaultConfig)
            [(quiet_start, slow_shutdown 0 (250 * time.Millisecond));
             (quiet_start, (fun _ => Some errShutdown2) : ShutdownFn)])
         (schedule [StartReturns 0; StartReturns 1; WaiterWakes]
                   [1%nat; 0%nat]) (Some errShutdown2) = true.
Proof. reflexivity. Qed.

(** ** Configuration *)

Lemma Second_nanoseconds : time.Second = 1000000000.
Proof. reflexivity. Qed.

(** C8. [Config] has the single field [ShutdownTimeout], and in
    [DefaultConfig] it is [5 * time.Second], five thousand million
    nanoseconds. *)
Theorem DefaultConfig_ShutdownTimeout :
  ShutdownTimeout DefaultConfig = 5 * time.Second /\
  ShutdownTimeout DefaultConfig = 5000000000 /\
  (forall c : Config, c = {| ShutdownTimeout := ShutdownTimeout c |}).
Proof.
  repeat split. intros [t]. reflexivity.
Qed.

(** ** Registry *)

Section Registry.

Implicit Types (r : Group) (entries : list (StartFn * ShutdownFn)).

Lemma AddAll_cons e entries r :
  AddAll r (e :: entries) = AddAll (Add r e.1 e.2) entries.
Proof. reflexivity. Qed.

Lemma AddAll_cfg entries r : cfg (AddAll r entries) = cfg r.
Proof.
  revert r. induction entries as [|e entries IH]; intros r; [done|].
  by rewrite AddAll_cons, IH.
Qed.

Lemma AddAll_startFns entries r :
  startFns (AddAll r entries) = startFns r ++ entries.*1.
Proof.
  revert r. induction entries as [|e entries IH]; intros r.
  - simpl. by rewrite app_nil_r.
  - rewrite AddAll_cons, IH. simpl. by rewrite <- app_assoc.
Qed.

Lemma AddAll_shutdownFns entries r :
  shutdownFns (AddAll r entries) = shutdownFns r ++ entries.*2.
Proof.
  revert r. induction entries as [|e entries IH]; intros r.
  - simpl. by rewrite app_nil_r.
  - rewrite AddAll_cons, IH. simpl. by rewrite <- app_assoc.
Qed.

End Registry.

(** C9. After any sequence of [Add] calls on [New c], the two lists have
    the same length, position [i] of each holds the two functions of the
    [i]-th call, and further calls leave what is there in place: they only
    extend both lists at the end. *)
Theorem Add_only_appends (c : Config)
    (entries more : list (StartFn * ShutdownFn)) :
  let r := AddAll (New c) entries in
  length (startFns r) = length (shutdownFns r) /\
  length (startFns r) = length entries /\
  (forall i : nat,
     startFns r !! i = fst <$> entries !! i /\
     shutdownFns r !! i = snd <$> entries !! i) /\
  (forall start shutdown,
     startFns (Add r start shutdown) = startFns r ++ [start] /\
     shutdownFns (Add r start shutdown) = shutdownFns r ++ [shutdown]) /\
  startFns (AddAll r more) = startFns r ++ more.*1 /\
  shutdownFns (AddAll r more) = shutdownFns r ++ more.*2 /\
  cfg (AddAll r more) = c.
Proof.
  intros r.
  assert (Hs : startFns r = entries.*1) by apply AddAll_startFns.
  assert (Hd : shutdownFns r = entries.*2) by apply AddAll_shutdownFns.
  repeat split.
  - by rewrite Hs, Hd, !length_fmap.
  - by rewrite Hs, length_fmap.
  - by rewrite Hs, list_lookup_fmap.
  - by rewrite Hd, list_lookup_fmap.
  - apply AddAll_startFns.
  - apply AddAll_shutdownFns.
  - unfold r. by rewrite !AddAll_cfg.
Qed.

(** ** Errors: identity checks through [errors.Join] *)

Section Errors.

Implicit Types (e t : error) (es : list error).

Lemma same_refl e : same e e = true.
Proof. destruct e; simpl; auto using Nat.eqb_refl. Qed.

Lemma is_refl e : is_ e e = true.
Proof. destruct e; simpl; by rewrite ?Nat.eqb_refl. Qed.

(** The unfolding of [is_] at a joined error, with the inner loop as
    [existsb]. *)
Lemma is_joinError a es t :
  is_ (joinError a es) t =
  same (joinError a es) t || existsb (fun e => is_ e t) es.
Proof.
  simpl.
  destruct (match t with joinError q _ => Nat.eqb a q | _ => false end);
    [done|]. simpl.
  induction es as [|e es IH]; [done|].
  simpl. destruct (is_ e t); [done|]. exact IH.
Qed.

Lemma is_wrapError a e t :
  is_ (wrapError a e) t = same (wrapError a e) t || is_ e t.
Proof. simpl. by destruct t. Qed.

(** Whatever an operand of a join answers to, the join answers to. *)
Lemma is_joinError_elem a es e t :
  e ∈ es -> is_ e t = true -> is_ (joinError a es) t = true.
Proof.
  intros Hin Ht. rewrite is_joinError. apply orb_true_iff. right.
  apply existsb_exists. exists e. split; [|done].
  by apply list_elem_of_In.
Qed.

Lemma Join_None a (errs : list (option error)) :
  Join a errs = None <-> Forall (fun o => o = None) errs.
Proof.
  unfold Join. split.
  - intros H. destruct (omap id errs) as [|e es] eqn:Ho; [|done].
    apply Forall_forall. intros [x|] Hin%list_elem_of_In; [|done].
    assert (x ∈ omap id errs) as Hx
      by (apply list_elem_of_omap; exists (Some x); by split).
    rewrite Ho in Hx. by apply elem_of_nil in Hx.
  - intros H. induction H as [|o errs Ho _ IH]; [done|].
    subst o. simpl. exact IH.
Qed.

Lemma Join_cause a (errs : list (option error)) e :
  Some e ∈ errs ->
  exists j, Join a errs = Some j /\
            forall t, is_ e t = true -> is_ j t = true.
Proof.
  intros Hin.
  assert (e ∈ omap id errs) as He
    by (apply list_elem_of_omap; exists (Some e); by split).
  unfold Join. destruct (omap id errs) as [|e0 es] eqn:Ho.
  - by apply elem_of_nil in He.
  - eexists. split; [done|]. intros t Ht.
    by apply is_joinError_elem with e.
Qed.

End Errors.

(** ** The run phase *)

Section RunPhase.

Variable r : Group.

Implicit Types (st : RunState) (ev : Event) (evs : list Event).

Lemma exec_app st evs1 evs2 :
  exec r st (evs1 ++ evs2) = exec r (exec r st evs1) evs2.
Proof. apply fold_left_app. Qed.

Lemma exec_snoc st evs ev :
  exec r st (evs ++ [ev]) = step r (exec r st evs) ev.
Proof. by rewrite exec_app. Qed.

(** The cause of the derived context is written once. *)
Lemma step_cause_once st ev c :
  cause st = Some c -> cause (step r st ev) = Some c.
Proof. intros H. destruct ev; step_cases. Qed.

Lemma exec_cause_once evs st c :
  cause st = Some c -> cause (exec r st evs) = Some c.
Proof.
  revert st. induction evs as [|ev evs IH]; intros st H; [done|].
  simpl. apply IH. by apply step_cause_once.
Qed.

Lemma consistent_launched : consistent r (launched r).
Proof.
  repeat split; simpl; try done.
  intros k Hk%elem_of_seq. lia.
Qed.

Lemma consistent_step st ev :
  consistent r st -> consistent r (step r st ev).
Proof.
  intros (Hd & He & Hw).
  destruct ev; step_cases; repeat split; simpl; eauto;
    try (intros k [_ Hk]%list_elem_of_filter; by apply Hw);
    try (intros k Hk%elem_of_nil; done);
    try (intros k Hk;
         match goal with
         | Heq : g_wg _ = _ |- _ => rewrite Heq in Hk
         end;
         first [by apply elem_of_nil in Hk | by apply Hw]).
Qed.

Lemma consistent_exec evs st :
  consistent r st -> consistent r (exec r st evs).
Proof.
  revert st. induction evs as [|ev evs IH]; intros st H; [done|].
  simpl. apply IH. by apply consistent_step.
Qed.

(** [wait] is decided by the cause of the derived context. *)
Lemma wait_cause_Some evs c :
  cause (exec r (launched r) evs) = Some c ->
  wait r evs = Returned (if is_ c Canceled then None else Some c).
Proof.
  intros H. unfold wait. rewrite H.
  rewrite (bool_decide_eq_true_2 (is_Some (Some c))) by eauto.
  rewrite orb_true_r. simpl. by destruct (is_ c Canceled).
Qed.

Lemma wait_cause_None evs :
  cause (exec r (launched r) evs) = None -> wait r evs = Blocked.
Proof.
  intros H. unfold wait.
  destruct (consistent_exec evs _ consistent_launched) as (Hd & _ & _).
  destruct (done (exec r (launched r) evs)) eqn:Hdone.
  - destruct (Hd eq_refl) as [c Hc]. congruence.
  - by rewrite H.
Qed.

Lemma wait_Blocked_cause evs :
  wait r evs = Blocked -> cause (exec r (launched r) evs) = None.
Proof.
  intros H. destruct (cause (exec r (launched r) evs)) as [c|] eqn:Hc; [|done].
  rewrite (wait_cause_Some _ _ Hc) in H. done.
Qed.

Lemma wait_Returned_cause evs res :
  wait r evs = Returned res ->
  exists c, cause (exec r (launched r) evs) = Some c /\
            res = if is_ c Canceled then None else Some c.
Proof.
  intros H. destruct (cause (exec r (launched r) evs)) as [c|] eqn:Hc.
  - exists c. split; [done|]. rewrite (wait_cause_Some _ _ Hc) in H.
    congruence.
  - by rewrite (wait_cause_None _ Hc) in H.
Qed.

(** A start goroutine stays in the wait-group until its return is
    scheduled. *)
Lemma cancel_wg c st : g_wg (cancel c st) = g_wg st.
Proof. unfold cancel. by destruct (cause st). Qed.

Lemma go_returns_wg i ret st :
  g_wg (go_returns i ret st) = filter (fun k => k <> i) (g_wg st).
Proof.
  unfold go_returns. simpl.
  destruct ret, (g_err st); simpl; by rewrite ?cancel_wg.
Qed.

Lemma step_wg_keeps st ev i :
  i ∈ g_wg st -> ev <> StartReturns i -> i ∈ g_wg (step r st ev).
Proof.
  intros Hi Hev. destruct ev as [k|c|]; simpl.
  - destruct (startFns r !! k); [|done].
    destruct (bool_decide (k ∈ g_wg st)); [|done].
    rewrite go_returns_wg. apply list_elem_of_filter. split; [|done].
    congruence.
  - by rewrite cancel_wg.
  - destruct (g_wg st) eqn:Hw; [|by rewrite Hw].
    by apply elem_of_nil in Hi.
Qed.

Lemma exec_wg_keeps evs st i :
  i ∈ g_wg st -> StartReturns i ∉ evs -> i ∈ g_wg (exec r st evs).
Proof.
  revert st. induction evs as [|ev evs IH]; intros st Hi Hn; [done|].
  simpl. apply IH.
  - apply step_wg_keeps; [done|]. intros ->. apply Hn. by left.
  - intros H. apply Hn. by right.
Qed.

Lemma launched_wg i :
  (i < length (startFns r))%nat -> i ∈ g_wg (launched r).
Proof. intros H. simpl. apply elem_of_seq. lia. Qed.

End RunPhase.

(** ** The shutdown phase *)

Section ShutdownPhase.

Variable r : Group.
Variable ctx : context.Context.

Implicit Types (st : ShutdownState) (order : list nat).

Abbreviation sstep := (shutdown_step r ctx).
Abbreviation registered := (length (shutdownFns r)).

Lemma shutdown_step_wg st j k :
  bounded r st ->
  k ∈ s_wg (sstep st j) <-> k ∈ s_wg st /\ k <> j.
Proof.
  intros Hb. unfold shutdown_step.
  destruct (shutdownFns r !! j) as [f|] eqn:Hj.
  - destruct (bool_decide (j ∈ s_wg st)) eqn:Hin; simpl.
    + rewrite list_elem_of_filter. tauto.
    + apply bool_decide_eq_false in Hin. split; [|tauto].
      intros Hk. split; [done|]. by intros ->.
  - apply lookup_ge_None in Hj. split; [|tauto].
    intros Hk. split; [done|]. intros ->. apply Hb in Hk.
    exact (Nat.lt_irrefl _ (Nat.lt_le_trans _ _ _ Hk Hj)).
Qed.

Lemma shutdown_step_bounded st j :
  bounded r st -> bounded r (sstep st j).
Proof. intros Hb k Hk. apply shutdown_step_wg in Hk; [|done]. apply Hb, Hk. Qed.

Lemma shutdown_fold_wg order st k :
  bounded r st ->
  k ∈ s_wg (fold_left sstep order st) <-> k ∈ s_wg st /\ k ∉ order.
Proof.
  revert st. induction order as [|j order IH]; intros st Hb; simpl.
  - rewrite elem_of_nil. tauto.
  - rewrite IH by by apply shutdown_step_bounded.
    rewrite shutdown_step_wg by done. rewrite not_elem_of_cons. tauto.
Qed.

(** [errOnce]: the recorded error is never replaced. *)
Lemma shutdown_fold_err_keep order st e :
  s_err st = Some e -> s_err (fold_left sstep order st) = Some e.
Proof.
  revert st. induction order as [|j order IH]; intros st H; [done|].
  simpl. apply IH. unfold shutdown_step.
  destruct (shutdownFns r !! j); [|done].
  destruct (bool_decide _); [|done]. simpl. by rewrite H.
Qed.

Lemma shutdown_fold_err_none order st :
  s_err st = None ->
  (forall k f, k ∈ order -> shutdownFns r !! k = Some f -> f ctx = None) ->
  s_err (fold_left sstep order st) = None.
Proof.
  revert st. induction order as [|j order IH]; intros st H Hnil; [done|].
  simpl. apply IH.
  - unfold shutdown_step.
    destruct (shutdownFns r !! j) as [f|] eqn:Hj; [|done].
    destruct (bool_decide _); [|done]. simpl. rewrite H.
    apply (Hnil j); [by left|done].
  - intros k f Hk. apply Hnil. by right.
Qed.

(** A recorded error is what some shutdown function returned. *)
Lemma shutdown_fold_err_origin order st e :
  s_err (fold_left sstep order st) = Some e ->
  s_err st = Some e \/
  exists j f, j ∈ order /\ shutdownFns r !! j = Some f /\ f ctx = Some e.
Proof.
  revert st. induction order as [|j order IH]; intros st H; [by left|].
  simpl in H. apply IH in H as [H|(k & f & Hk & Hf & He)].
  - unfold shutdown_step in H.
    destruct (shutdownFns r !! j) as [f|] eqn:Hj; [|by left].
    destruct (bool_decide _); [|by left]. simpl in H.
    destruct (s_err st); [by left|].
    right. exists j, f. repeat split; [by left|done..].
  - right. exists k, f. repeat split; [by right|done..].
Qed.

Lemma bounded_started : bounded r (started r).
Proof. intros k Hk%elem_of_seq. lia. Qed.

Lemma shutdown_exec_wg_nil order :
  s_wg (shutdown_exec r ctx order) = [] <->
  forall k, (k < registered)%nat -> k ∈ order.
Proof.
  unfold shutdown_exec. split.
  - intros Hnil k Hk.
    destruct (decide (k ∈ order)) as [|Hn]; [done|]. exfalso.
    assert (k ∈ s_wg (fold_left sstep order (started r))) as Hin.
    { apply shutdown_fold_wg; [apply bounded_started|]. split; [|done].
      apply elem_of_seq. lia. }
    rewrite Hnil in Hin. by apply elem_of_nil in Hin.
  - intros Hall.
    destruct (s_wg (fold_left sstep order (started r))) as [|k l] eqn:Hw; [done|].
    assert (k ∈ s_wg (fold_left sstep order (started r))) as Hin
      by (rewrite Hw; by left).
    apply shutdown_fold_wg in Hin as [Hk Hn]; [|apply bounded_started].
    apply elem_of_seq in Hk. exfalso. apply Hn, Hall. lia.
Qed.

(** The error kept is the one of the first function, in order of return,
    that returns one. *)
Lemma shutdown_exec_first_error pre j post f e :
  (forall k f', k ∈ pre -> shutdownFns r !! k = Some f' -> f' ctx = None) ->
  shutdownFns r !! j = Some f ->
  f ctx = Some e ->
  s_err (shutdown_exec r ctx (pre ++ j :: post)) = Some e.
Proof.
  intros Hpre Hj He.
  assert (s_err (fold_left sstep pre (started r)) = None) as Hnone
    by by apply shutdown_fold_err_none.
  assert (j ∈ s_wg (fold_left sstep pre (started r))) as Hin.
  { apply shutdown_fold_wg; [apply bounded_started|]. split.
    - apply elem_of_seq. apply lookup_lt_Some in Hj.
      split; [lia | exact Hj].
    - intros Hjpre. specialize (Hpre j f Hjpre Hj). congruence. }
  unfold shutdown_exec. rewrite fold_left_app.
  change (fold_left sstep (j :: post) ?s)
    with (fold_left sstep post (sstep s j)).
  apply shutdown_fold_err_keep.
  unfold shutdown_step at 1. rewrite Hj.
  rewrite bool_decide_eq_true_2 by done. simpl. by rewrite Hnone.
Qed.

End ShutdownPhase.

(** ** [Wait]: the two phases together *)

Section WaitRun.

Variables (r : Group) (ctx : context.Context) (w : World).

Lemma run_err_wait : run_err (Wait_run r ctx w) = wait r (events w).
Proof.
  unfold Wait_run. destruct (wait r (events w)); [done|].
  by destruct (shutdown _ _ _ _).
Qed.

Lemma shutdown_err_shutdown err :
  wait r (events w) = Returned err ->
  shutdown_err (Wait_run r ctx w) =
  shutdown r (now w) (S (heap w)) (finished w).
Proof.
  intros H. unfold Wait_run. rewrite H. by destruct (shutdown _ _ _ _).
Qed.

Lemma Wait_Returned err shutdownError :
  wait r (events w) = Returned err ->
  shutdown r (now w) (S (heap w)) (finished w) = Returned shutdownError ->
  Wait r ctx w = Returned (Join (heap w + 3) [shutdownError; err]).
Proof. intros H1 H2. unfold Wait, Wait_run. by rewrite H1, H2. Qed.

Lemma Wait_Returned_inv res :
  Wait r ctx w = Returned res ->
  exists shutdownError err,
    wait r (events w) = Returned err /\
    shutdown r (now w) (S (heap w)) (finished w) = Returned shutdownError /\
    res = Join (heap w + 3) [shutdownError; err].
Proof.
  unfold Wait, Wait_run. intros H.
  destruct (wait r (events w)) as [|err]; [done|].
  destruct (shutdown _ _ _ _) as [|sh]; [done|].
  exists sh, err. simpl in H. by simplify_eq.
Qed.

Lemma shutdown_Returned order now0 addr :
  (forall k, (k < length (shutdownFns r))%nat -> k ∈ order) ->
  shutdown r now0 addr order =
  Returned (s_err (shutdown_exec r (shutdown_ctx r now0 addr) order)).
Proof.
  intros H. unfold shutdown.
  by rewrite (proj2 (shutdown_exec_wg_nil r _ order) H).
Qed.

Lemma shutdown_Returned_inv order now0 addr x :
  shutdown r now0 addr order = Returned x ->
  forall k, (k < length (shutdownFns r))%nat -> k ∈ order.
Proof.
  unfold shutdown. intros H.
  apply (shutdown_exec_wg_nil r (shutdown_ctx r now0 addr)).
  by destruct (s_wg _).
Qed.








Lemma calls_shutdown_log err :
  wait r (events w) = Returned err ->
  calls (Wait_run r ctx w) =
  shutdown_log r (now w) (S (heap w)) (finished w).
Proof.
  intros H. unfold Wait_run. rewrite H. by destruct (shutdown _ _ _ _).
Qed.


End WaitRun.

(** ** The claims about [Wait] *)

(** C7. When [Wait] returns, its result is [errors.Join] of the error of
    the shutdown phase and the error of the run phase, in this order.  It
    is nil exactly when both are nil; otherwise it is a joined error, and
    [errors.Is] finds each of the two errors in it, together with
    everything that error itself answers to. *)
Theorem Wait_joins_both_phases (r : Group) (ctx : context.Context) (w : World)
    (res : option error) :
  Wait r ctx w = Returned res ->
  exists shutdownError err,
    shutdown_err (Wait_run r ctx w) = Returned shutdownError /\
    run_err (Wait_run r ctx w) = Returned err /\
    res = Join (heap w + 3) [shutdownError; err] /\
    (res = None <-> shutdownError = None /\ err = None) /\
    (forall e, shutdownError = Some e \/ err = Some e ->
       exists j es, res = Some (joinError j es) /\
                    e ∈ es /\
                    Is res (Some e) = true /\
                    forall t, is_ e t = true -> Is res (Some t) = true).
Proof.
  intros H. destruct (Wait_Returned_inv _ _ _ _ H) as (sh & err & Hw & Hs & ->).
  exists sh, err.
  split; [by rewrite (shutdown_err_shutdown _ _ _ _ Hw)|].
  split; [by rewrite run_err_wait|].
  split; [done|]. split; [split|].
  - intros Hn. apply Join_None in Hn.
    inversion Hn as [|? ? ? Hn']. by inversion Hn'.
  - intros [-> ->]. done.
  - intros e He.
    assert (Some e ∈ [sh; err]) as Hin.
    { destruct He as [->| ->]; [by left|]. right. by left. }
    assert (e ∈ omap id [sh; err]) as Hom
      by (apply list_elem_of_omap; exists (Some e); by split).
    unfold Join. destruct (omap id [sh; err]) as [|e0 es] eqn:Ho.
    { by apply elem_of_nil in Hom. }
    exists (heap w + 3)%nat, (e0 :: es). repeat split; [done|..].
    + unfold Is. apply is_joinError_elem with e; [done|apply is_refl].
    + intros t Ht. unfold Is. by apply is_joinError_elem with e.
Qed.

(** Witness of C7: the first test of the repository, one start function
    that fails at once. *)
Lemma Wait_joins_both_phases_witness :
  let r := Add (New DefaultConfig)
             (fun _ => Some (errorString 100)) (fun _ => None) in
  let w := {| events := [StartReturns 0]; finished := [0%nat];
              now := 0; heap := 1 |} in
  exists shutdownError err,
    shutdown_err (Wait_run r caller_ctx w) = Returned shutdownError /\
    run_err (Wait_run r caller_ctx w) = Returned err /\
    Some (joinError 4 [errorString 100]) = Join (heap w + 3) [shutdownError; err] /\
    (Some (joinError 4 [errorString 100]) = None <->
       shutdownError = None /\ err = None) /\
    (forall e, shutdownError = Some e \/ err = Some e ->
       exists j es, Some (joinError 4 [errorString 100]) = Some (joinError j es) /\
                    e ∈ es /\
                    Is (Some (joinError 4 [errorString 100])) (Some e) = true /\
                    forall t, is_ e t = true ->
                      Is (Some (joinError 4 [errorString 100])) (Some t) = true).
Proof.
  intros r w.
  apply (Wait_joins_both_phases r caller_ctx w).
  reflexivity.
Defined.

(** [Wait] returns as soon as the run phase has ended and every shutdown
    function has returned. *)
Lemma Wait_returns (r : Group) (ctx : context.Context) (w : World)
    (err : option error) :
  wait r (events w) = Returned err ->
  (forall k, (k < length (shutdownFns r))%nat -> k ∈ finished w) ->
  exists shutdownError,
    shutdown r (now w) (S (heap w)) (finished w) = Returned shutdownError /\
    Wait r ctx w = Returned (Join (heap w + 3) [shutdownError; err]).
Proof.
  intros Hw Hall. eexists. split.
  - by apply shutdown_Returned.
  - apply Wait_Returned; [done|]. by apply shutdown_Returned.
Qed.

(** A non-nil error of the run phase is a cause of what [Wait] returns. *)
Lemma Wait_run_error_cause (r : Group) (ctx : context.Context) (w : World)
    (e : error) :
  wait r (events w) = Returned (Some e) ->
  (forall res, Wait r ctx w = Returned res -> Is res (Some e) = true) /\
  ((forall k, (k < length (shutdownFns r))%nat -> k ∈ finished w) ->
   exists j, Wait r ctx w = Returned (Some j) /\ is_ j e = true).
Proof.
  intros Hw. split.
  - intros res H.
    destruct (Wait_Returned_inv _ _ _ _ H) as (sh & err & Hw' & _ & ->).
    rewrite Hw in Hw'. simplify_eq.
    destruct (Join_cause (heap w + 3) [sh; Some e] e) as (j & -> & Hj).
    { right. by left. }
    simpl. apply Hj, is_refl.
  - intros Hall.
    destruct (Wait_returns r ctx w _ Hw Hall) as (sh & _ & ->).
    destruct (Join_cause (heap w + 3) [sh; Some e] e) as (j & -> & Hj).
    { right. by left. }
    exists j. split; [done|]. apply Hj, is_refl.
Qed.

(** C3, counterexample.  The context ends while the only start function
    is still running, with a cause that is not the plain
    [context.Canceled] value but wraps it: the result of the run phase is
    nil and not that cause, and [Wait] returns nil.  And a context whose
    deadline passes after every start function has returned nil finds the
    run phase over, with a nil result, although no start function ever
    failed. *)
Lemma wrapped_cancellation_cause_is_dropped :
  same wrapped_cancel Canceled = false /\
  wait one_quiet_worker [] = Blocked /\
  wait one_quiet_worker [CtxDone wrapped_cancel] = Returned None /\
  wait one_quiet_worker [CtxDone wrapped_cancel] <>
    Returned (Some wrapped_cancel) /\
  Wait one_quiet_worker caller_ctx
       (schedule [CtxDone wrapped_cancel] [0%nat]) = Returned None /\
  wait one_quiet_worker [StartReturns 0; WaiterWakes; CtxDone DeadlineExceeded] =
    Returned None.
Proof. repeat split. discriminate. Qed.

(** C3, amended.  If the caller's context ends while the run phase is
    still waiting (no start function has failed, and the waiter has not
    seen all of them return), the result of the run phase is nil when the cause of the
    context is [context.Canceled] in the sense of [errors.Is], and is that
    cause otherwise; in the second case the cause is found by [errors.Is]
    in what [Wait] returns, and [Wait] does return a non-nil error once
    the shutdown functions have returned. *)
Theorem wait_context_done (r : Group) (ctx : context.Context) (w : World)
    (pre post : list Event) (c : error) :
  events w = pre ++ CtxDone c :: post ->
  wait r pre = Blocked ->
  run_err (Wait_run r ctx w) =
    Returned (if is_ c Canceled then None else Some c) /\
  (c = Canceled -> run_err (Wait_run r ctx w) = Returned None) /\
  (is_ c Canceled = false ->
     run_err (Wait_run r ctx w) = Returned (Some c) /\
     (forall res, Wait r ctx w = Returned res -> Is res (Some c) = true) /\
     ((forall k, (k < length (shutdownFns r))%nat -> k ∈ finished w) ->
      exists j, Wait r ctx w = Returned (Some j) /\ is_ j c = true)).
Proof.
  intros Hev Hpre. apply wait_Blocked_cause in Hpre.
  assert (wait r (events w) =
          Returned (if is_ c Canceled then None else Some c)) as Hw.
  { apply wait_cause_Some. rewrite Hev, exec_app. simpl.
    apply exec_cause_once. unfold cancel. by rewrite Hpre. }
  rewrite run_err_wait. split; [done|]. split.
  - intros ->. by rewrite Hw.
  - intros Hc. rewrite Hc in Hw. split; [done|].
    by apply Wait_run_error_cause.
Qed.

(** Witness of C3: two workers; the first start function has returned
    nil, the second is still running when the deadline of the caller's
    context passes. *)
Lemma wait_context_done_witness :
  let r := two_quiet_workers in
  let w := {| events := [StartReturns 0; CtxDone DeadlineExceeded];
              finished := [1%nat; 0%nat]; now := 1000; heap := 1 |} in
  run_err (Wait_run r deadline_ctx w) =
    Returned (if is_ DeadlineExceeded Canceled then None
              else Some DeadlineExceeded) /\
  (DeadlineExceeded = Canceled ->
   run_err (Wait_run r deadline_ctx w) = Returned None) /\
  (is_ DeadlineExceeded Canceled = false ->
     run_err (Wait_run r deadline_ctx w) =
       Returned (Some DeadlineExceeded) /\
     (forall res, Wait r deadline_ctx w = Returned res ->
                  Is res (Some DeadlineExceeded) = true) /\
     ((forall k, (k < length (shutdownFns r))%nat -> k ∈ finished w) ->
      exists j, Wait r deadline_ctx w = Returned (Some j) /\
                is_ j DeadlineExceeded = true)).
Proof.
  intros r w.
  apply (wait_context_done r deadline_ctx w [StartReturns 0] []
           DeadlineExceeded).
  - reflexivity.
  - reflexivity.
Defined.

(** *** Errors of start functions *)

(** C4, counterexample.  A start function returns a non-nil error, and
    [Wait] returns nil: the error came after the context had ended the run
    phase. *)
Lemma late_start_error_is_dropped :
  (exists start, startFns example_server !! 0%nat = Some start /\
                 start tt = Some (errorString 7) /\
                 StartReturns 0 ∈ events example_signal) /\
  Wait example_server caller_ctx example_signal = Returned None.
Proof.
  split; [|reflexivity].
  eexists. split; [reflexivity|]. split; [reflexivity|].
  right. left.
Qed.

(** C4, amended.  If a start function returns a non-nil error while the
    run phase is still waiting, and the error does not answer to
    [context.Canceled], then that error is the result of the run phase,
    and once every shutdown function has returned [Wait] returns a non-nil
    error in which [errors.Is] finds it. *)
Theorem first_start_error_is_reported (r : Group) (ctx : context.Context)
    (w : World) (pre post : list Event) (i : nat) (start : StartFn)
    (e : error) :
  events w = pre ++ StartReturns i :: post ->
  wait r pre = Blocked ->
  StartReturns i ∉ pre ->
  startFns r !! i = Some start ->
  start tt = Some e ->
  is_ e Canceled = false ->
  (forall k, (k < length (shutdownFns r))%nat -> k ∈ finished w) ->
  run_err (Wait_run r ctx w) = Returned (Some e) /\
  exists j, Wait r ctx w = Returned (Some j) /\ is_ j e = true.
Proof.
  intros Hev Hpre Hfresh Hi He Hc Hall.
  apply wait_Blocked_cause in Hpre.
  assert (g_err (exec r (launched r) pre) = None) as Hgerr.
  { destruct (consistent_exec r pre _ (consistent_launched r)) as (_ & Hg & _).
    destruct (g_err (exec r (launched r) pre)) as [x|]; [|done].
    destruct Hg as [y Hy]; [by eexists|]. congruence. }
  assert (i ∈ g_wg (exec r (launched r) pre)) as Hwg.
  { apply exec_wg_keeps; [|done]. apply launched_wg.
    by apply lookup_lt_Some in Hi. }
  assert (wait r (events w) = Returned (Some e)) as Hw.
  { replace (Returned (Some e))
      with (Returned (if is_ e Canceled then None else Some e))
      by by rewrite Hc.
    apply wait_cause_Some. rewrite Hev, exec_app.
    change (exec r ?s (StartReturns i :: post))
      with (exec r (step r s (StartReturns i)) post).
    apply exec_cause_once. unfold step. rewrite Hi.
    rewrite bool_decide_eq_true_2 by done.
    unfold go_returns. rewrite He, Hgerr. unfold cancel. simpl.
    by rewrite Hpre. }
  rewrite run_err_wait. split; [done|].
  by apply Wait_run_error_cause.
Qed.

(** Witness of C4 amended: the first test of the repository. *)
Lemma first_start_error_is_reported_witness :
  let r := Add (New DefaultConfig)
             (fun _ => Some (errorString 100)) (fun _ => None) in
  let w := {| events := [StartReturns 0]; finished := [0%nat];
              now := 0; heap := 1 |} in
  run_err (Wait_run r caller_ctx w) =
    Returned (Some (errorString 100)) /\
  exists j, Wait r caller_ctx w = Returned (Some j) /\
            is_ j (errorString 100) = true.
Proof.
  intros r w.
  apply (first_start_error_is_reported r caller_ctx w [] []
           0%nat (fun _ => Some (errorString 100)) (errorString 100)).
  - reflexivity.
  - reflexivity.
  - apply not_elem_of_nil.
  - reflexivity.
  - reflexivity.
  - reflexivity.
  - intros k Hk. simpl in Hk. assert (k = 0%nat) as -> by lia. by left.
Defined.

(** For the record: a start error that is, or wraps, [context.Canceled]
    ends the run phase like any other, and is then filtered out by the
    [errors.Is] test of [wait]. *)
Lemma start_error_Canceled_is_filtered :
  let r := Add (New DefaultConfig)
             (fun _ => Some (wrapError 8 Canceled)) (fun _ => None) in
  let w := {| events := [StartReturns 0]; finished := [0%nat];
              now := 0; heap := 1 |} in
  Wait r caller_ctx w = Returned None.
Proof. reflexivity. Qed.

(** *** Errors of shutdown functions *)

(** C1, counterexample.  Both shutdown functions return a non-nil error,
    the two errors are distinct, and the second to return is not a cause
    of what [Wait] returns: the errgroup of [shutdown] keeps the first
    error only, first in order of return and not of registration. *)
Lemma second_shutdown_error_is_dropped :
  (exists f0 f1 sctx,
     shutdownFns two_failing_shutdowns !! 0%nat = Some f0 /\
     shutdownFns two_failing_shutdowns !! 1%nat = Some f1 /\
     sctx = shutdown_ctx two_failing_shutdowns (now both_shut_down)
              (S (heap both_shut_down)) /\
     f0 sctx = Some errShutdownFn /\
     f1 sctx = Some errShutdown2 /\
     same errShutdownFn errShutdown2 = false) /\
  Wait two_failing_shutdowns caller_ctx both_shut_down =
    Returned (Some (joinError 4 [errShutdownFn])) /\
  Is (Some (joinError 4 [errShutdownFn])) (Some errShutdown2) = false /\
  Wait two_failing_shutdowns caller_ctx
       (schedule (events both_shut_down) [1%nat; 0%nat]) =
    Returned (Some (joinError 4 [errShutdown2])) /\
  Is (Some (joinError 4 [errShutdown2])) (Some errShutdownFn) = false.
Proof.
  split; [|repeat split].
  do 3 eexists. repeat split; reflexivity.
Qed.

(** C1, amended.  Of the errors returned by shutdown functions, the
    shutdown phase keeps one: that of the first function, in order of
    return, to return a non-nil error.  [Wait] joins this error with the
    error of the run phase and with nothing else, and [errors.Is] finds it
    in the result. *)
Theorem first_shutdown_error_is_kept (r : Group) (ctx : context.Context)
    (w : World) (err : option error) (pre post : list nat) (j : nat)
    (f : ShutdownFn) (e : error) :
  let sctx := shutdown_ctx r (now w) (S (heap w)) in
  wait r (events w) = Returned err ->
  finished w = pre ++ j :: post ->
  (forall k f', k ∈ pre -> shutdownFns r !! k = Some f' -> f' sctx = None) ->
  shutdownFns r !! j = Some f ->
  f sctx = Some e ->
  (forall k, (k < length (shutdownFns r))%nat -> k ∈ finished w) ->
  shutdown_err (Wait_run r ctx w) = Returned (Some e) /\
  Wait r ctx w = Returned (Join (heap w + 3) [Some e; err]) /\
  exists x, Wait r ctx w = Returned (Some x) /\ is_ x e = true.
Proof.
  intros sctx Hw Hfin Hpre Hj He Hall.
  assert (shutdown r (now w) (S (heap w)) (finished w) = Returned (Some e))
    as Hs.
  { rewrite shutdown_Returned by done. f_equal. rewrite Hfin.
    by apply shutdown_exec_first_error with f. }
  split; [by rewrite (shutdown_err_shutdown _ _ _ _ Hw)|].
  assert (Wait r ctx w = Returned (Join (heap w + 3) [Some e; err])) as HW
    by by apply Wait_Returned.
  split; [done|]. rewrite HW.
  destruct (Join_cause (heap w + 3) [Some e; err] e) as (x & -> & Hx);
    [by left|].
  exists x. split; [done|]. apply Hx, is_refl.
Qed.

(** Witness of C1 amended: three shutdown functions; the first to return
    gives nil, the second fails, and the third fails later with another
    error, which is then not kept. *)
Lemma first_shutdown_error_is_kept_witness :
  let r := AddAll (New DefaultConfig)
             [(quiet_start, quiet_shutdown);
              (quiet_start, (fun _ => Some errShutdownFn) : ShutdownFn);
              (quiet_start, (fun _ => Some errShutdown2) : ShutdownFn)] in
  let w := schedule [StartReturns 0; StartReturns 1; StartReturns 2;
                     WaiterWakes] [0%nat; 1%nat; 2%nat] in
  shutdown_err (Wait_run r caller_ctx w) = Returned (Some errShutdownFn) /\
  Wait r caller_ctx w =
    Returned (Join (heap w + 3) [Some errShutdownFn; None]) /\
  exists x, Wait r caller_ctx w = Returned (Some x) /\
            is_ x errShutdownFn = true.
Proof.
  intros r w.
  apply (first_shutdown_error_is_kept r caller_ctx w None [0%nat] [2%nat]
           1%nat (fun _ => Some errShutdownFn) errShutdownFn).
  - reflexivity.
  - reflexivity.
  - intros k f' Hk Hf. apply elem_of_cons in Hk as [->|Hk].
    + simpl in Hf. by simplify_eq.
    + by apply elem_of_nil in Hk.
  - reflexivity.
  - reflexivity.
  - intros k Hk. simpl in Hk.
    destruct k as [|[|[|k]]];
      [by left|right; by left|right; right; by left|lia].
Defined.

(** *** What ends the run phase *)

Section RunPhaseEnds.

Variable r : Group.

Implicit Types (evs : list Event) (c : error).

Lemma StartReturns_in_dec i evs :
  StartReturns i ∈ evs \/ StartReturns i ∉ evs.
Proof.
  induction evs as [|ev evs [IH|IH]].
  - right. apply not_elem_of_nil.
  - left. by right.
  - destruct ev as [k|c|].
    + destruct (decide (k = i)) as [->|Hne]; [left; by left|].
      right. apply not_elem_of_cons. split; [congruence|done].
    + right. by apply not_elem_of_cons.
    + right. by apply not_elem_of_cons.
Qed.

Lemma wg_empty_all_returned evs :
  g_wg (exec r (launched r) evs) = [] ->
  forall i, (i < length (startFns r))%nat -> StartReturns i ∈ evs.
Proof.
  intros Hnil i Hi. destruct (StartReturns_in_dec i evs) as [|Hn]; [done|].
  pose proof (exec_wg_keeps r evs _ i (launched_wg r i Hi) Hn) as Hin.
  rewrite Hnil in Hin. by apply elem_of_nil in Hin.
Qed.

Lemma cause_from_app evs more c :
  cause_from r evs c -> cause_from r (evs ++ more) c.
Proof.
  intros [H|[(i & start & H & Hi & Hs)|(-> & H & Hall)]].
  - left. apply elem_of_app. by left.
  - right. left. exists i, start. split; [|done]. apply elem_of_app. by left.
  - right. right. split; [done|]. split.
    + apply elem_of_app. by left.
    + intros i Hi. apply elem_of_app. left. by apply Hall.
Qed.

Lemma g_err_None_of_cause_None evs :
  cause (exec r (launched r) evs) = None ->
  g_err (exec r (launched r) evs) = None.
Proof.
  intros Hc.
  destruct (consistent_exec r evs _ (consistent_launched r)) as (_ & Hg & _).
  destruct (g_err (exec r (launched r) evs)) as [x|]; [|done].
  destruct Hg as [y Hy]; [by eexists|]. congruence.
Qed.

Lemma cause_provenance evs c :
  cause (exec r (launched r) evs) = Some c -> cause_from r evs c.
Proof.
  revert c. induction evs as [|ev evs IH] using rev_ind; intros c; [done|].
  rewrite exec_snoc.
  destruct (cause (exec r (launched r) evs)) as [c0|] eqn:Hc.
  - rewrite (step_cause_once r _ ev c0 Hc). intros [= ->].
    apply cause_from_app. by apply IH.
  - pose proof (g_err_None_of_cause_None evs Hc) as Hg.
    destruct ev as [i|c'|]; unfold step.
    + destruct (startFns r !! i) as [start|] eqn:Hi; [|congruence].
      destruct (bool_decide _); [|congruence].
      unfold go_returns. rewrite Hg.
      destruct (start tt) as [e|] eqn:He; simpl; [|congruence].
      unfold cancel. simpl. rewrite Hc. simpl. intros [= ->].
      right. left. exists i, start. split; [|done].
      apply elem_of_app. right. by left.
    + unfold cancel. rewrite Hc. simpl. intros [= ->].
      left. apply elem_of_app. right. by left.
    + destruct (g_wg (exec r (launched r) evs)) eqn:Hw; [|congruence].
      unfold cancel. rewrite Hc, Hg. simpl. intros [= <-].
      right. right. split; [done|]. split.
      * apply elem_of_app. right. by left.
      * intros i Hi. apply elem_of_app. left.
        by apply wg_empty_all_returned.
Qed.

(** When the last start function has returned and none has failed, the
    waiter's [g.Wait()] returns, cancels the derived context with a nil
    cause and closes [done]: the run phase ends with a nil result. *)
Lemma wait_ends_when_all_returned pre post :
  wait r pre = Blocked ->
  g_wg (exec r (launched r) pre) = [] ->
  wait r (pre ++ WaiterWakes :: post) = Returned None.
Proof.
  intros Hpre Hw. apply wait_Blocked_cause in Hpre.
  pose proof (g_err_None_of_cause_None pre Hpre) as Hg.
  change (Returned None)
    with (Returned (if is_ Canceled Canceled then None else Some Canceled)).
  apply wait_cause_Some. rewrite exec_app.
  change (exec r ?s (WaiterWakes :: post))
    with (exec r (step r s WaiterWakes) post).
  apply exec_cause_once. unfold step. rewrite Hw.
  unfold cancel. by rewrite Hpre, Hg.
Qed.

End RunPhaseEnds.

(** C2, counterexample.  Every start function returns nil, the context
    never ends, and the run phase ends all the same, with a nil result. *)
Lemma run_phase_ends_when_all_return_nil :
  (forall i start,
     startFns two_quiet_workers !! i = Some start -> start tt = None) /\
  (forall c, CtxDone c ∉ all_return) /\
  wait two_quiet_workers all_return = Returned None /\
  wait two_quiet_workers all_return <> Blocked.
Proof.
  split; [|split; [|split]].
  - intros [|[|i]] start H; simpl in H; by simplify_eq.
  - intros c H. unfold all_return in H.
    repeat (apply elem_of_cons in H as [H|H]; [discriminate|]).
    by apply elem_of_nil in H.
  - reflexivity.
  - discriminate.
Qed.

(** C2, amended.  The run phase ends only in one of three ways: the
    caller's context ends; a start function returns a non-nil error; or
    every start function has returned and the waiter has seen it, in which
    case the result is nil.  In the first two cases the result is the
    cause or the error, unless it answers to [context.Canceled].  A nil
    return alone, with another start function still running, ends
    nothing. *)
Theorem wait_returns_only_when (r : Group) (evs : list Event)
    (res : option error) :
  wait r evs = Returned res ->
  (exists c, CtxDone c ∈ evs /\
             res = if is_ c Canceled then None else Some c) \/
  (exists i start e,
     StartReturns i ∈ evs /\ startFns r !! i = Some start /\
     start tt = Some e /\
     res = if is_ e Canceled then None else Some e) \/
  (WaiterWakes ∈ evs /\
   (forall i, (i < length (startFns r))%nat -> StartReturns i ∈ evs) /\
   res = None).
Proof.
  intros H. apply wait_Returned_cause in H as (c & Hc & ->).
  apply cause_provenance in Hc
    as [H|[(i & start & H & Hi & Hs)|(-> & H & Hall)]].
  - left. by exists c.
  - right. left. by exists i, start, c.
  - right. right. done.
Qed.

(** Witness of C2 amended: the fourth test of [TestGroup]; the first start
    function returns nil, the second fails later. *)
Lemma wait_returns_only_when_witness :
  let r := AddAll (New DefaultConfig)
    [((fun _ => None) : StartFn, (fun _ => None) : ShutdownFn);
     ((fun _ => Some (errorString 100)) : StartFn,
      (fun _ => None) : ShutdownFn)] in
  let evs := [StartReturns 0; StartReturns 1] in
  (exists c, CtxDone c ∈ evs /\
     Some (errorString 100) = if is_ c Canceled then None else Some c) \/
  (exists i start e,
     StartReturns i ∈ evs /\ startFns r !! i = Some start /\
     start tt = Some e /\
     Some (errorString 100) = if is_ e Canceled then None else Some e) \/
  (WaiterWakes ∈ evs /\
   (forall i, (i < length (startFns r))%nat -> StartReturns i ∈ evs) /\
   Some (errorString 100) = None).
Proof.
  intros r evs.
  apply (wait_returns_only_when r evs (Some (errorString 100))).
  reflexivity.
Defined.

(** A nil return does not end the run phase: with the context alive, no
    failure among the returns so far and a start function still running,
    [wait] stays blocked. *)
Lemma wait_keeps_waiting (r : Group) (evs : list Event) (i : nat) :
  (forall c, CtxDone c ∉ evs) ->
  (forall k start, StartReturns k ∈ evs ->
                   startFns r !! k = Some start -> start tt = None) ->
  (i < length (startFns r))%nat ->
  StartReturns i ∉ evs ->
  wait r evs = Blocked.
Proof.
  intros Hctx Hnil Hi Hrun.
  destruct (wait r evs) as [|res] eqn:Hw; [done|]. exfalso.
  apply wait_Returned_cause in Hw as (c & Hc & _).
  apply cause_provenance in Hc
    as [H|[(k & start & H & Hk & Hs)|(_ & _ & Hall)]].
  - by apply (Hctx c).
  - rewrite (Hnil k start H Hk) in Hs. done.
  - by apply Hrun, Hall.
Qed.

(** *** A group without entries *)

(** C10, counterexample.  On an empty group, [Wait] called with a context
    whose deadline has already passed returns that deadline error:
    [errgroup.WithContext] derives a context that is done from the start,
    with the cause of its parent. *)
Lemma empty_group_expired_context :
  startFns (New DefaultConfig) = [] /\
  shutdownFns (New DefaultConfig) = [] /\
  Wait (New DefaultConfig) deadline_ctx
       {| events := [CtxDone DeadlineExceeded; WaiterWakes];
          finished := []; now := 2000; heap := 1 |} =
    Returned (Some (joinError 4 [DeadlineExceeded])).
Proof. repeat split. Qed.

Section EmptyGroup.

Variable c : Config.

Lemma empty_exec_voluntary (evs : list Event) :
  Forall voluntary evs ->
  let st := exec (New c) (launched (New c)) evs in
  g_wg st = [] /\
  (cause st = None \/ exists x, cause st = Some x /\ is_ x Canceled = true).
Proof.
  induction evs as [|ev evs IH] using rev_ind; intros Hv; simpl.
  - split; [done|by left].
  - apply Forall_app in Hv as [Hevs Hev].
    apply Forall_inv in Hev.
    destruct (IH Hevs) as [Hwg Hcause]. rewrite exec_snoc.
    set (st := exec (New c) (launched (New c)) evs) in *.
    destruct ev as [i|x|]; unfold step; simpl.
    + done.
    + rewrite cancel_wg. split; [done|]. right. unfold cancel.
      destruct Hcause as [Hn|(y & Hy & Hyc)].
      * rewrite Hn. simpl. by exists x.
      * rewrite Hy. by exists y.
    + rewrite Hwg. simpl. rewrite cancel_wg. split; [done|]. right.
      unfold cancel. destruct Hcause as [Hn|(y & Hy & Hyc)].
      * pose proof (g_err_None_of_cause_None (New c) evs Hn) as Hg.
        fold st in Hg. rewrite Hn, Hg. simpl. by exists Canceled.
      * rewrite Hy. by exists y.
Qed.

Lemma empty_shutdown (now0 : time.Time) (addr : nat) (order : list nat) :
  shutdown (New c) now0 addr order = Returned None.
Proof.
  rewrite shutdown_Returned by (simpl; intros; lia).
  f_equal. unfold shutdown_exec. apply shutdown_fold_err_none; [done|].
  intros k f _ Hk. simpl in Hk. by rewrite lookup_nil in Hk.
Qed.

Lemma empty_shutdown_fold (x : context.Context) (order : list nat)
    (st : ShutdownState) :
  fold_left (shutdown_step (New c) x) order st = st.
Proof. induction order as [|j order IH]; [done|]. simpl. exact IH. Qed.

Lemma empty_shutdown_log (now0 : time.Time) (addr : nat) (order : list nat) :
  shutdown_log (New c) now0 addr order = [].
Proof.
  unfold shutdown_log, shutdown_exec. by rewrite empty_shutdown_fold.
Qed.

End EmptyGroup.

(** C10, amended.  On a group without entries, once the waiter has run,
    [Wait] returns nil, provided the caller's context has not ended before
    that with a cause other than [context.Canceled]: the run phase ends
    with a nil result, no shutdown function is called, the shutdown phase
    yields nil, and so does the join. *)
Theorem Wait_empty_group (c : Config) (ctx : context.Context) (w : World)
    (pre post : list Event) :
  events w = pre ++ WaiterWakes :: post ->
  Forall voluntary pre ->
  run_err (Wait_run (New c) ctx w) = Returned None /\
  shutdown_err (Wait_run (New c) ctx w) = Returned None /\
  calls (Wait_run (New c) ctx w) = [] /\
  Wait (New c) ctx w = Returned None.
Proof.
  intros Hev Hpre.
  assert (wait (New c) (events w) = Returned None) as Hw.
  { destruct (empty_exec_voluntary c (pre ++ [WaiterWakes])) as [_ Hc].
    { apply Forall_app. split; [done|]. by repeat constructor. }
    destruct Hc as [Hn|(x & Hx & Hxc)].
    - exfalso. rewrite exec_snoc in Hn. unfold step in Hn.
      destruct (empty_exec_voluntary c pre Hpre) as [Hwg _].
      simpl in Hwg. rewrite Hwg in Hn. unfold cancel in Hn.
      destruct (cause (exec (New c) (launched (New c)) pre)) eqn:Hc;
        simpl in Hn; congruence.
    - replace (Returned None)
        with (Returned (if is_ x Canceled then None else Some x))
        by by rewrite Hxc.
      apply wait_cause_Some. rewrite Hev.
      replace (pre ++ WaiterWakes :: post)
        with ((pre ++ [WaiterWakes]) ++ post) by by rewrite <- app_assoc.
      rewrite exec_app. by apply exec_cause_once. }
  pose proof (empty_shutdown c (now w) (S (heap w)) (finished w)) as Hs.
  split; [by rewrite run_err_wait|].
  split; [by rewrite (shutdown_err_shutdown _ _ _ _ Hw)|].
  split.
  - rewrite (calls_shutdown_log _ ctx _ _ Hw). apply empty_shutdown_log.
  - by rewrite (Wait_Returned _ ctx _ _ _ Hw Hs).
Qed.

(** Witness of C10 amended: the context is alive when the waiter runs. *)
Lemma Wait_empty_group_witness :
  let w := {| events := [WaiterWakes]; finished := []; now := 0; heap := 1 |} in
  run_err (Wait_run (New DefaultConfig) caller_ctx w) = Returned None /\
  shutdown_err (Wait_run (New DefaultConfig) caller_ctx w) =
    Returned None /\
  calls (Wait_run (New DefaultConfig) caller_ctx w) = [] /\
  Wait (New DefaultConfig) caller_ctx w = Returned None.
Proof.
  intros w.
  apply (Wait_empty_group DefaultConfig caller_ctx w [] []).
  - reflexivity.
  - constructor.
Defined.

(** * Further properties of the run phase *)

Section RunPhaseMore.

Variable r : Group.

Implicit Types (st : RunState) (ev : Event) (evs : list Event).

(** A start goroutine leaves the wait-group when its return is
    scheduled, and not otherwise. *)
Lemma step_wg_elem st ev k :
  consistent r st ->
  k ∈ g_wg (step r st ev) -> k ∈ g_wg st /\ ev <> StartReturns k.
Proof.
  intros (_ & _ & Hw) Hk. destruct ev as [i|c|]; simpl in Hk.
  - destruct (startFns r !! i) as [start|] eqn:Hi.
    + destruct (bool_decide (i ∈ g_wg st)) eqn:Hin.
      * rewrite go_returns_wg in Hk.
        apply list_elem_of_filter in Hk as [Hne Hk]. split; [done|congruence].
      * apply bool_decide_eq_false in Hin. split; [done|].
        intros [= ->]. done.
    + split; [done|]. intros [= ->].
      apply lookup_ge_None in Hi. apply Hw in Hk. lia.
  - rewrite cancel_wg in Hk. done.
  - destruct (g_wg st) eqn:Hwg; [|by rewrite Hwg in Hk].
    simpl in Hk. rewrite cancel_wg, Hwg in Hk. by apply elem_of_nil in Hk.
Qed.

Lemma exec_wg_elem evs st k :
  consistent r st ->
  k ∈ g_wg (exec r st evs) -> k ∈ g_wg st /\ StartReturns k ∉ evs.
Proof.
  revert st. induction evs as [|ev evs IH]; intros st Hc Hk.
  - split; [done|apply not_elem_of_nil].
  - simpl in Hk. apply IH in Hk as [Hk Hn]; [|by apply consistent_step].
    apply step_wg_elem in Hk as [Hk Hev]; [|done].
    split; [done|]. apply not_elem_of_cons. split; [congruence|done].
Qed.

Lemma all_returned_wg_nil evs :
  (forall i, (i < length (startFns r))%nat -> StartReturns i ∈ evs) ->
  g_wg (exec r (launched r) evs) = [].
Proof.
  intros Hall. destruct (g_wg (exec r (launched r) evs)) as [|k l] eqn:Hw; [done|].
  assert (k ∈ g_wg (exec r (launched r) evs)) as Hk by (rewrite Hw; by left).
  apply exec_wg_elem in Hk as [Hk Hn]; [|apply consistent_launched].
  exfalso. apply Hn, Hall. simpl in Hk. apply elem_of_seq in Hk. lia.
Qed.

End RunPhaseMore.

(** X1. The result of the run phase is settled by the event that ends it:
    whatever is scheduled afterwards (a start function failing, the
    context ending, the waiter waking) leaves it as it is. *)
Theorem wait_result_is_final (r : Group) (evs more : list Event)
    (res : option error) :
  wait r evs = Returned res -> wait r (evs ++ more) = Returned res.
Proof.
  intros H. apply wait_Returned_cause in H as (c & Hc & ->).
  apply wait_cause_Some. rewrite exec_app. by apply exec_cause_once.
Qed.

Lemma wait_result_is_final_witness :
  wait example_server (events example_signal) = Returned None.
Proof.
  apply (wait_result_is_final example_server [CtxDone Canceled]
           [StartReturns 0] None).
  reflexivity.
Defined.

(** X2. A non-nil result of the run phase is never made up and never a
    cancellation: it is the cause with which the caller's context ended,
    or the error returned by a registered start function, and
    [errors.Is] does not find [context.Canceled] in it. *)
Theorem wait_error_origin (r : Group) (evs : list Event) (e : error) :
  wait r evs = Returned (Some e) ->
  is_ e Canceled = false /\
  (CtxDone e ∈ evs \/
   exists i start, StartReturns i ∈ evs /\
                   startFns r !! i = Some start /\ start tt = Some e).
Proof.
  intros H. apply wait_Returned_cause in H as (c & Hc & Hres).
  destruct (is_ c Canceled) eqn:Hcan; [done|]. simplify_eq.
  split; [done|].
  apply cause_provenance in Hc as [H|[H|(-> & _)]]; [by left|by right|done].
Qed.

Lemma wait_error_origin_witness :
  is_ errStartFn Canceled = false /\
  (CtxDone errStartFn ∈ [StartReturns 0] \/
   exists i start,
     StartReturns i ∈ [StartReturns 0] /\
     startFns (Add (New DefaultConfig) failing_start quiet_shutdown) !! i =
       Some start /\
     start tt = Some errStartFn).
Proof.
  apply (wait_error_origin
           (Add (New DefaultConfig) failing_start quiet_shutdown)
           [StartReturns 0] errStartFn).
  reflexivity.
Defined.

(** X3. A start function that returns nil does not start the shutdown: as
    long as the caller's context is alive, no start function has failed
    and one of them has not returned, [wait] stays blocked. *)
Theorem nil_return_does_not_end_run_phase (r : Group) (evs : list Event)
    (i : nat) :
  (forall c, CtxDone c ∉ evs) ->
  (forall k start, StartReturns k ∈ evs ->
                   startFns r !! k = Some start -> start tt = None) ->
  (i < length (startFns r))%nat ->
  StartReturns i ∉ evs ->
  wait r evs = Blocked /\
  (forall ctx w, events w = evs ->
     Wait r ctx w = Blocked /\
     forall j, shutdown_calls_of j (calls (Wait_run r ctx w)) = []).
Proof.
  intros Hctx Hnil Hi Hrun.
  assert (wait r evs = Blocked) as Hw by by apply wait_keeps_waiting with i.
  split; [done|]. intros ctx w Hev. unfold Wait, Wait_run.
  rewrite Hev, Hw. simpl. split; [done|].
  intros j. reflexivity.
Qed.

Lemma nil_return_does_not_end_run_phase_witness :
  let r := AddAll (New DefaultConfig)
             [(quiet_start, quiet_shutdown); (failing_start, quiet_shutdown)] in
  wait r [StartReturns 0] = Blocked /\
  (forall ctx w, events w = [StartReturns 0] ->
     Wait r ctx w = Blocked /\
     forall j, shutdown_calls_of j (calls (Wait_run r ctx w)) = []).
Proof.
  intros r.
  apply (nil_return_does_not_end_run_phase r [StartReturns 0] 1).
  - intros c H. apply elem_of_cons in H as [H|H]; [discriminate|].
    by apply elem_of_nil in H.
  - intros k start H Hk. apply elem_of_cons in H as [H|H].
    + injection H as ->. simpl in Hk. by simplify_eq.
    + by apply elem_of_nil in H.
  - simpl. lia.
  - intros H. apply elem_of_cons in H as [H|H]; [discriminate|].
    by apply elem_of_nil in H.
Defined.

(** X4. Once every start function has returned without ending the run
    phase (so each returned nil, with the context still alive), the
    waiter ends it: the result of the run phase is nil, although nothing
    was canceled and nothing failed. *)
Theorem waiter_ends_run_phase (r : Group) (pre post : list Event) :
  wait r pre = Blocked ->
  (forall i, (i < length (startFns r))%nat -> StartReturns i ∈ pre) ->
  wait r (pre ++ WaiterWakes :: post) = Returned None.
Proof.
  intros Hpre Hall. apply wait_ends_when_all_returned; [done|].
  by apply all_returned_wg_nil.
Qed.

Lemma waiter_ends_run_phase_witness :
  wait two_quiet_workers
       ([StartReturns 1; StartReturns 0] ++ WaiterWakes :: [CtxDone Canceled]) =
  Returned None.
Proof.
  apply (waiter_ends_run_phase two_quiet_workers
           [StartReturns 1; StartReturns 0] [CtxDone Canceled]).
  - reflexivity.
  - intros i Hi. simpl in Hi.
    destruct i as [|[|i]]; [right; by left|by left|lia].
Defined.

(** * Further properties of the shutdown phase and of [Wait] *)

Section ShutdownPhaseMore.

Variable r : Group.
Variable ctx : context.Context.

Implicit Types (st : ShutdownState) (order : list nat).

(** No error recorded: every function that went through [g.Go]'s
    epilogue returned nil. *)
Lemma shutdown_fold_err_None_inv order st :
  bounded r st ->
  s_err (fold_left (shutdown_step r ctx) order st) = None ->
  s_err st = None /\
  forall j f, j ∈ order -> j ∈ s_wg st ->
              shutdownFns r !! j = Some f -> f ctx = None.
Proof.
  revert st. induction order as [|j0 order IH]; intros st Hb H.
  - split; [done|]. intros j f Hj. by apply elem_of_nil in Hj.
  - simpl in H. apply IH in H as [Hstep Hrest];
      [|by apply shutdown_step_bounded].
    assert (s_err st = None /\
            (j0 ∈ s_wg st -> forall f, shutdownFns r !! j0 = Some f ->
                                       f ctx = None)) as [Hst Hj0].
    { unfold shutdown_step in Hstep.
      destruct (shutdownFns r !! j0) as [f0|] eqn:Hl.
      - destruct (bool_decide (j0 ∈ s_wg st)) eqn:Hin.
        + simpl in Hstep. destruct (s_err st); [done|].
          split; [done|]. intros _ f [= <-]. done.
        + apply bool_decide_eq_false in Hin. split; [done|]. done.
      - split; [done|]. intros _ f Hf. done. }
    split; [done|]. intros j f Hj Hwg Hf.
    destruct (decide (j = j0)) as [->|Hne]; [by apply Hj0|].
    apply elem_of_cons in Hj as [->|Hj]; [done|].
    apply (Hrest j f); [done| |done].
    apply shutdown_step_wg; [done|]. by split.
Qed.

End ShutdownPhaseMore.

Lemma shutdown_err_Returned_inv (r : Group) (ctx : context.Context)
    (w : World) (x : option error) :
  shutdown_err (Wait_run r ctx w) = Returned x ->
  (exists err, wait r (events w) = Returned err) /\
  shutdown r (now w) (S (heap w)) (finished w) = Returned x.
Proof.
  unfold Wait_run. destruct (wait r (events w)) as [|err]; [done|].
  destruct (shutdown _ _ _ _) as [|sh] eqn:Hs; [done|].
  simpl. intros [= ->]. split; [by eexists|done].
Qed.

(** All shutdown functions return nil exactly when the shutdown phase,
    once over, has no error. *)
Lemma shutdown_Returned_None_iff (r : Group) (now0 : time.Time) (addr : nat)
    (order : list nat) (x : option error) :
  shutdown r now0 addr order = Returned x ->
  x = None <->
  forall j f, shutdownFns r !! j = Some f ->
              f (shutdown_ctx r now0 addr) = None.
Proof.
  intros Hs. pose proof (shutdown_Returned_inv r _ _ _ _ Hs) as Hall.
  rewrite (shutdown_Returned r order now0 addr Hall) in Hs.
  injection Hs as <-. unfold shutdown_exec. split.
  - intros Hnone j f Hj.
    apply shutdown_fold_err_None_inv in Hnone as [_ Hnil];
      [|apply bounded_started].
    pose proof (lookup_lt_Some _ _ _ Hj) as Hlt.
    apply (Hnil j f); [by apply Hall| |done].
    simpl. apply elem_of_seq. lia.
  - intros Hnil. apply shutdown_fold_err_none; [done|].
    intros k f _. apply Hnil.
Qed.

(** X5. [Wait] returns exactly when the run phase has ended and every
    registered shutdown function has returned: a shutdown function that
    does not return keeps [Wait] blocked, whatever the timeout. *)
Theorem Wait_returns_iff (r : Group) (ctx : context.Context) (w : World) :
  (exists res, Wait r ctx w = Returned res) <->
  (exists err, wait r (events w) = Returned err) /\
  (forall k, (k < length (shutdownFns r))%nat -> k ∈ finished w).
Proof.
  split.
  - intros [res H].
    destruct (Wait_Returned_inv _ _ _ _ H) as (sh & err & Hw & Hs & _).
    split; [by exists err|]. by apply (shutdown_Returned_inv _ _ _ _ _ Hs).
  - intros [[err Hw] Hall].
    destruct (Wait_returns r ctx w err Hw Hall) as (sh & _ & HW).
    by eexists.
Qed.

(** X6. When [Wait] returns, it returns nil exactly when the run phase
    ended without error and every registered shutdown function returned
    nil: one failing shutdown function is enough for a non-nil result. *)
Theorem Wait_nil_iff (r : Group) (ctx : context.Context) (w : World)
    (res : option error) :
  Wait r ctx w = Returned res ->
  res = None <->
  (wait r (events w) = Returned None /\
   forall j f, shutdownFns r !! j = Some f ->
               f (shutdown_ctx r (now w) (S (heap w))) = None).
Proof.
  intros H. destruct (Wait_Returned_inv _ _ _ _ H) as (sh & err & Hw & Hs & ->).
  rewrite <- (shutdown_Returned_None_iff r _ _ _ sh Hs). rewrite Hw. split.
  - intros Hn. apply Join_None in Hn.
    inversion Hn as [|? ? -> Hn']. inversion Hn' as [|? ? -> _]. done.
  - intros [[= ->] ->]. done.
Qed.

Lemma Wait_nil_iff_witness :
  (None : option error) = None <->
  (wait two_quiet_workers (events both_shut_down) = Returned None /\
   forall j f, shutdownFns two_quiet_workers !! j = Some f ->
               f (shutdown_ctx two_quiet_workers (now both_shut_down)
                    (S (heap both_shut_down))) = None).
Proof.
  apply (Wait_nil_iff two_quiet_workers caller_ctx both_shut_down None).
  reflexivity.
Defined.

(** X7. The error of the shutdown phase is never made up: it is what a
    registered shutdown function that has returned gave back when called
    with the shutdown context. *)
Theorem shutdown_error_origin (r : Group) (ctx : context.Context) (w : World)
    (e : error) :
  shutdown_err (Wait_run r ctx w) = Returned (Some e) ->
  exists j f, j ∈ finished w /\ shutdownFns r !! j = Some f /\
              f (shutdown_ctx r (now w) (S (heap w))) = Some e.
Proof.
  intros H. apply shutdown_err_Returned_inv in H as [_ Hs].
  pose proof (shutdown_Returned_inv r _ _ _ _ Hs) as Hall.
  rewrite (shutdown_Returned r _ _ _ Hall) in Hs. injection Hs as Hs.
  unfold shutdown_exec in Hs.
  apply shutdown_fold_err_origin in Hs as [Hs|Hs]; [done|exact Hs].
Qed.

Lemma shutdown_error_origin_witness :
  exists j f, j ∈ finished both_shut_down /\
              shutdownFns two_failing_shutdowns !! j = Some f /\
              f (shutdown_ctx two_failing_shutdowns (now both_shut_down)
                   (S (heap both_shut_down))) = Some errShutdownFn.
Proof.
  apply (shutdown_error_origin two_failing_shutdowns caller_ctx
           both_shut_down errShutdownFn).
  reflexivity.
Defined.

(** X8. A shutdown function that fails alone is reported whatever the
    order of return: if every other shutdown function returns nil, the
    error of the shutdown phase is the error of the failing one, and
    [Wait] joins it with the result of the run phase. *)
Theorem lone_shutdown_error_is_reported (r : Group) (ctx : context.Context)
    (w : World) (err : option error) (j : nat) (f : ShutdownFn) (e : error) :
  let sctx := shutdown_ctx r (now w) (S (heap w)) in
  wait r (events w) = Returned err ->
  (forall k, (k < length (shutdownFns r))%nat -> k ∈ finished w) ->
  shutdownFns r !! j = Some f ->
  f sctx = Some e ->
  (forall k f', k <> j -> shutdownFns r !! k = Some f' -> f' sctx = None) ->
  shutdown_err (Wait_run r ctx w) = Returned (Some e) /\
  Wait r ctx w = Returned (Join (heap w + 3) [Some e; err]).
Proof.
  intros sctx Hw Hall Hj He Hothers.
  assert (j ∈ finished w) as Hin
    by (apply Hall; by apply lookup_lt_Some in Hj).
  apply list_elem_of_split_l in Hin as (pre & post & Hfin & Hpre).
  assert (shutdown r (now w) (S (heap w)) (finished w) = Returned (Some e))
    as Hs.
  { rewrite shutdown_Returned by done. f_equal. rewrite Hfin.
    apply shutdown_exec_first_error with f; [|done|done].
    intros k f' Hk. apply Hothers. intros ->. done. }
  split; [by rewrite (shutdown_err_shutdown _ _ _ _ Hw)|].
  by apply Wait_Returned.
Qed.

Lemma lone_shutdown_error_is_reported_witness :
  let r := AddAll (New DefaultConfig)
             [(quiet_start, quiet_shutdown);
              (quiet_start, (fun _ => Some errShutdown2) : ShutdownFn)] in
  let w := schedule [StartReturns 0; StartReturns 1; WaiterWakes]
                    [0%nat; 1%nat] in
  shutdown_err (Wait_run r caller_ctx w) = Returned (Some errShutdown2) /\
  Wait r caller_ctx w = Returned (Join (heap w + 3) [Some errShutdown2; None]).
Proof.
  intros r w.
  apply (lone_shutdown_error_is_reported r caller_ctx w None 1
           (fun _ => Some errShutdown2) errShutdown2).
  - reflexivity.
  - intros k Hk. simpl in Hk.
    destruct k as [|[|k]]; [by left|right; by left|lia].
  - reflexivity.
  - reflexivity.
  - intros [|[|k]] f' Hne Hk; simpl in Hk; by simplify_eq.
Defined.

(** * Further properties: the timeout *)

(** What a well-behaved slow shutdown function returns under the
    configured timeout. *)
Lemma slow_shutdown_result (r : Group) (now0 : time.Time) (addr : nat)
    (work : time.Duration) :
  slow_shutdown now0 work (shutdown_ctx r now0 addr) =
  if (0 <? ShutdownTimeout (cfg r)) && (ShutdownTimeout (cfg r) <? work)
  then Some DeadlineExceeded else None.
Proof.
  unfold slow_shutdown, shutdown_ctx.
  destruct (0 <? ShutdownTimeout (cfg r)); [|done].
  cbv [context.WithTimeout context.WithDeadline context.WithCancel
       context.Deadline time.Add]. simpl.
  destruct (Z.ltb_spec (now0 + ShutdownTimeout (cfg r)) (now0 + work)),
           (Z.ltb_spec (ShutdownTimeout (cfg r)) work); done || lia.
Qed.

(** X9. Shutdown functions that watch their context are cut short by the
    timeout and by nothing else.  If every shutdown function needs some
    time of work and returns [ctx.Err()] when the deadline comes first,
    the error of the shutdown phase is [context.DeadlineExceeded] exactly
    when the timeout is positive and shorter than the work of one of
    them; with a zero or negative timeout none is ever cut short. *)
Theorem timeout_cuts_slow_shutdowns (r : Group) (ctx : context.Context)
    (w : World) (err : option error) (works : list time.Duration) :
  wait r (events w) = Returned err ->
  (forall k, (k < length (shutdownFns r))%nat -> k ∈ finished w) ->
  shutdownFns r = slow_shutdown (now w) <$> works ->
  shutdown_err (Wait_run r ctx w) =
    Returned (if (0 <? ShutdownTimeout (cfg r)) &&
                 existsb (fun work => ShutdownTimeout (cfg r) <? work) works
              then Some DeadlineExceeded else None).
Proof.
  intros Hw Hall Hfns.
  rewrite (shutdown_err_shutdown _ _ _ _ Hw).
  destruct (shutdown r (now w) (S (heap w)) (finished w)) as [|sh] eqn:Hs.
  { rewrite shutdown_Returned in Hs by done. done. }
  f_equal.
  assert (forall j f, shutdownFns r !! j = Some f ->
            exists work, works !! j = Some work /\
              f (shutdown_ctx r (now w) (S (heap w))) =
              if (0 <? ShutdownTimeout (cfg r)) &&
                 (ShutdownTimeout (cfg r) <? work)
              then Some DeadlineExceeded else None) as Hres.
  { intros j f Hj. rewrite Hfns, list_lookup_fmap in Hj.
    destruct (works !! j) as [work|]; [|done]. simpl in Hj.
    injection Hj as <-. exists work. split; [done|].
    apply slow_shutdown_result. }
  destruct ((0 <? ShutdownTimeout (cfg r)) &&
            existsb (fun work => ShutdownTimeout (cfg r) <? work) works)
    eqn:Hcut.
  - apply andb_true_iff in Hcut as [Hpos Hex].
    apply existsb_exists in Hex as (work & Hin%list_elem_of_In & Hlt).
    apply list_elem_of_lookup in Hin as [j Hj].
    destruct sh as [e|].
    + pose proof Hs as Hs'. rewrite shutdown_Returned in Hs' by done.
      injection Hs' as Hs'. unfold shutdown_exec in Hs'.
      apply shutdown_fold_err_origin in Hs' as [Hs'|(k & f & _ & Hk & Hf)];
        [done|].
      destruct (Hres k f Hk) as (work' & _ & Hf'). rewrite Hf in Hf'.
      destruct (_ && _) in Hf'; congruence.
    + exfalso.
      assert (shutdownFns r !! j = Some (slow_shutdown (now w) work)) as Hfj
        by (rewrite Hfns; by apply list_lookup_fmap_Some_2).
      pose proof (proj1 (shutdown_Returned_None_iff r _ _ _ None Hs)
                    eq_refl j _ Hfj) as Hnil.
      destruct (Hres j _ Hfj) as (work' & Hj' & Hf).
      assert (Some work = Some work') as [= <-]
        by exact (eq_trans (eq_sym Hj) Hj').
      rewrite Hnil, Hpos, Hlt in Hf. done.
  - apply (shutdown_Returned_None_iff r _ _ _ sh Hs).
    intros j f Hj. destruct (Hres j f Hj) as (work & Hwk & ->).
    destruct (0 <? ShutdownTimeout (cfg r)); [|done]. simpl in *.
    destruct (ShutdownTimeout (cfg r) <? work) eqn:Hlt; [|done].
    exfalso. apply not_true_iff_false in Hcut. apply Hcut.
    apply existsb_exists. exists work. split; [|done].
    apply list_elem_of_In. by apply list_elem_of_lookup_2 with j.
Qed.

(** Witness of X9: the third test of [TestGroup], a timeout of 10ms and
    a shutdown function that needs 250ms. *)
Lemma timeout_cuts_slow_shutdowns_witness :
  let r := Add (New {| ShutdownTimeout := 10 * time.Millisecond |})
             quiet_start (slow_shutdown 0 (250 * time.Millisecond)) in
  let w := schedule [StartReturns 0; WaiterWakes] [0%nat] in
  shutdown_err (Wait_run r caller_ctx w) =
    Returned (if (0 <? ShutdownTimeout (cfg r)) &&
                 existsb (fun work => ShutdownTimeout (cfg r) <? work)
                         [250 * time.Millisecond]
              then Some DeadlineExceeded else None).
Proof.
  intros r w.
  apply (timeout_cuts_slow_shutdowns r caller_ctx w None
           [250 * time.Millisecond]).
  - reflexivity.
  - intros k Hk. simpl in Hk. assert (k = 0%nat) as -> by lia. by left.
  - reflexivity.
Defined.

(** * The shutdown functions as [shutdown] runs them *)




